(** * iso-8601: calendar model, conversions and parsing entry points

    Shallow embedding of [src/lib.rs] and [src/parse/mod.rs].

    Integers of every Rust width are modelled as [Z] together with the
    width they live in.  Arithmetic follows a debug build of the crate:
    [+], [-] and [*] that leave the width panic, [/] and [%] truncate
    towards zero ([Z.quot], [Z.rem]), and [as] casts between integer
    widths wrap.  A panic ([unreachable!()] or an arithmetic overflow) is
    the [Panic] outcome of the small result monad [res]. *)

From Stdlib Require Import ZArith List Bool Lia String Ascii.
From Stdlib Require Strings.Byte.
From Stdlib Require Import Init.Byte.
Import ListNotations.
Open Scope Z_scope.

(** ** Machine integers *)

Inductive int_ty := I16 | I32 | I64 | U8 | U16 | U32 | U64.

Definition min_of (t : int_ty) : Z :=
  match t with
  | I16 => -32768 | I32 => -2147483648 | I64 => -9223372036854775808
  | U8 | U16 | U32 | U64 => 0
  end.

Definition max_of (t : int_ty) : Z :=
  match t with
  | I16 => 32767 | I32 => 2147483647 | I64 => 9223372036854775807
  | U8 => 255 | U16 => 65535 | U32 => 4294967295 | U64 => 18446744073709551615
  end.

Definition in_range (t : int_ty) (z : Z) : bool :=
  (min_of t <=? z) && (z <=? max_of t).

(** Why a Rust program stops. *)
Inductive panic := Unreachable | Overflow.

(** A computation that returns a value or panics. *)
Inductive res (A : Type) :=
| Ret (a : A)
| Panic (p : panic).
Arguments Ret {A} a.
Arguments Panic {A} p.

Definition bind {A B} (m : res A) (f : A -> res B) : res B :=
  match m with
  | Ret a => f a
  | Panic p => Panic p
  end.

Notation "x <- m ;; k" := (bind m (fun x => k))
  (at level 61, m at next level, right associativity).

(** Debug-build arithmetic: overflow panics. *)
Definition checked (t : int_ty) (z : Z) : res Z :=
  if in_range t z then Ret z else Panic Overflow.

Definition add (t : int_ty) (a b : Z) : res Z := checked t (a + b).
Definition sub (t : int_ty) (a b : Z) : res Z := checked t (a - b).
Definition mul (t : int_ty) (a b : Z) : res Z := checked t (a * b).

(** [as] casts between integer widths wrap around. *)
Definition as_u8 (z : Z) : Z := z mod 2 ^ 8.
Definition as_u16 (z : Z) : Z := z mod 2 ^ 16.
Definition as_i16 (z : Z) : Z := (z + 2 ^ 15) mod 2 ^ 16 - 2 ^ 15.

(** [x as u8] for a float [x] saturates at the bounds of [u8]. *)
Definition sat_u8 (z : Z) : Z := Z.max 0 (Z.min 255 z).

(** [(dc as f32 / 7.0).ceil()] for an [i16] [dc]: [dc] is exact in [f32], a
    quotient that is not an integer is at least [1/7] away from one, and the
    rounding error of the division is below [2^-24 * 4682]; the ceiling is
    therefore the integer ceiling of [dc / 7]. *)
Definition ceil_div7 (dc : Z) : Z := - ((- dc) / 7).

(** ** The [Year] trait ([impl_year!]) *)

(** [is_leap]: [%] by the positive constants 4, 100 and 400 never overflows,
    so one body serves [i16], [i32], [i64], [u16], [u32] and [u64]. *)
Definition is_leap (year : Z) : bool :=
  let factor x := Z.rem year x =? 0 in
  factor 4 && (negb (factor 100) || factor 400).

(** [num_weeks]: [let p = |x| (x + x / 4 - x / 100 + x / 400) % 7;]
    [if p( *self) == 4 || p(self - 1) == 3 { 53 } else { 52 }]
    in the arithmetic of the year type [t]; [||] short-circuits. *)
Definition num_weeks_p (t : int_ty) (x : Z) : res Z :=
  s1 <- add t x (Z.quot x 4) ;;
  s2 <- sub t s1 (Z.quot x 100) ;;
  s3 <- add t s2 (Z.quot x 400) ;;
  Ret (Z.rem s3 7).

Definition num_weeks (t : int_ty) (year : Z) : res Z :=
  a <- num_weeks_p t year ;;
  if a =? 4 then Ret 53 else
  y1 <- sub t year 1 ;;
  b <- num_weeks_p t y1 ;;
  Ret (if b =? 3 then 53 else 52).

(** [num_days], the trait's provided method. *)
Definition num_days (year : Z) : Z := if is_leap year then 366 else 365.

(** ** Data model (the default year type [i16]) *)

Module YmdDate.
Record t := mk { year : Z; month : Z; day : Z }.
Definition wf (d : t) : bool :=
  in_range I16 (year d) && in_range U8 (month d) && in_range U8 (day d).
End YmdDate.

Module WeekDate.
Record t := mk { year : Z; week : Z; day : Z }.
Definition wf (d : t) : bool :=
  in_range I16 (year d) && in_range U8 (week d) && in_range U8 (day d).
End WeekDate.

Module OrdinalDate.
Record t := mk { year : Z; day : Z }.
Definition wf (d : t) : bool := in_range I16 (year d) && in_range U16 (day d).
End OrdinalDate.

Module LocalTime.
Record t := mk { hour : Z; minute : Z; second : Z; nanos : Z }.
End LocalTime.

Module Time.
Record t := mk { local : LocalTime.t; tz_offset : Z }.
End Time.

(** ** [Valid] *)

Definition ymd_is_valid (d : YmdDate.t) : bool :=
  (1 <=? YmdDate.day d) &&
  match YmdDate.month d with
  | 1 | 3 | 5 | 7 | 8 | 10 | 12 => YmdDate.day d <=? 31
  | 4 | 6 | 9 | 11 => YmdDate.day d <=? 30
  | 2 => YmdDate.day d <=? (if is_leap (YmdDate.year d) then 29 else 28)
  | _ => false
  end.

(** [num_weeks] may panic, so this predicate is a computation. *)
Definition week_is_valid (d : WeekDate.t) : res bool :=
  if 1 <=? WeekDate.week d then
    n <- num_weeks I16 (WeekDate.year d) ;;
    Ret ((WeekDate.week d <=? n) && (1 <=? WeekDate.day d) && (WeekDate.day d <=? 7))
  else Ret false.

Definition ordinal_is_valid (d : OrdinalDate.t) : bool :=
  (1 <=? OrdinalDate.day d) && (OrdinalDate.day d <=? num_days (OrdinalDate.year d)).

(** Accepts leap seconds on any day since they are not predictable. *)
Definition local_time_is_valid (t : LocalTime.t) : bool :=
  (LocalTime.hour t <=? 24) &&
  (LocalTime.minute t <=? 59) &&
  (LocalTime.second t <=? 60) &&
  (LocalTime.nanos t <? 1000000000).

Definition time_is_valid (t : Time.t) : bool :=
  local_time_is_valid (Time.local t) &&
  (Time.tz_offset t <? 24 * 60) && (Time.tz_offset t >? - 24 * 60).

(** ** Conversions *)

(** The arms of the [match date.day] in [From<OrdinalDate> for YmdDate], in
    source order: [(lo, hi, guarded by leap, month, offset)] stands for
    [lo ... hi if leap => (month, date.day - offset)] when the guard flag is
    set and for [lo ... hi => (month, date.day - offset)] otherwise. *)
Definition ordinal_arms : list (Z * Z * bool * Z * Z) :=
  [ (  1,  31, false,  1,   0);
    ( 32,  60, true,   2,  31); ( 32,  59, false,  2,  31);
    ( 61,  91, true,   3,  60); ( 60,  90, false,  3,  59);
    ( 92, 121, true,   4,  91); ( 91, 120, false,  4,  90);
    (122, 152, true,   5, 121); (121, 151, false,  5, 120);
    (153, 182, true,   6, 152); (152, 181, false,  6, 151);
    (183, 213, true,   7, 182); (182, 212, false,  7, 181);
    (214, 244, true,   8, 213); (213, 243, false,  8, 212);
    (245, 274, true,   9, 244); (244, 273, false,  9, 243);
    (275, 305, true,  10, 274); (274, 304, false, 10, 273);
    (306, 335, true,  11, 305); (305, 334, false, 11, 304);
    (336, 366, true,  12, 335); (335, 365, false, 12, 334) ].

(** The first arm that matches; [_ => unreachable!()] when none does. *)
Fixpoint match_ordinal (leap : bool) (d : Z) (arms : list (Z * Z * bool * Z * Z))
  : res (Z * Z) :=
  match arms with
  | [] => Panic Unreachable
  | (lo, hi, guard, m, off) :: rest =>
      if (lo <=? d) && (d <=? hi) && (negb guard || leap)
      then Ret (m, d - off)
      else match_ordinal leap d rest
  end.

(** [impl From<OrdinalDate> for YmdDate] *)
Definition ymd_of_ordinal (date : OrdinalDate.t) : res YmdDate.t :=
  let leap := is_leap (OrdinalDate.year date) in
  md <- match_ordinal leap (OrdinalDate.day date) ordinal_arms ;;
  let (month, day) := md in
  Ret (YmdDate.mk (OrdinalDate.year date) month (as_u8 day)).

(** The [match date.month] of [From<YmdDate> for OrdinalDate]. *)
Definition days_before_month (leap : bool) (month : Z) : res Z :=
  match month with
  | 1 => Ret 0
  | 2 => Ret 31
  | 3 => Ret (if leap then 60 else 59)
  | 4 => Ret (if leap then 91 else 90)
  | 5 => Ret (if leap then 121 else 120)
  | 6 => Ret (if leap then 152 else 151)
  | 7 => Ret (if leap then 182 else 181)
  | 8 => Ret (if leap then 213 else 212)
  | 9 => Ret (if leap then 244 else 243)
  | 10 => Ret (if leap then 274 else 273)
  | 11 => Ret (if leap then 305 else 304)
  | 12 => Ret (if leap then 335 else 334)
  | _ => Panic Unreachable
  end.

(** [impl From<YmdDate> for OrdinalDate] *)
Definition ordinal_of_ymd (date : YmdDate.t) : res OrdinalDate.t :=
  let leap := is_leap (YmdDate.year date) in
  before <- days_before_month leap (YmdDate.month date) ;;
  day <- add U16 before (YmdDate.day date) ;;
  Ret (OrdinalDate.mk (YmdDate.year date) day).

(** [impl From<OrdinalDate> for WeekDate]; all arithmetic is on [i16]. *)
Definition week_of_ordinal (date : OrdinalDate.t) : res WeekDate.t :=
  let year := OrdinalDate.year date in
  let y := Z.rem (Z.rem year 100) 28 in
  let cc := Z.rem (Z.quot year 100) 4 in
  y1 <- sub I16 y 1 ;;
  t1 <- add I16 y (Z.quot y1 4) ;;
  t2 <- mul I16 5 cc ;;
  t3 <- add I16 t1 t2 ;;
  t4 <- sub I16 t3 1 ;;
  let c0 := Z.rem t4 7 in
  c <- (if c0 >? 3 then sub I16 c0 7 else Ret c0) ;;
  dc <- add I16 (as_i16 (OrdinalDate.day date)) c ;;
  Ret (WeekDate.mk year (sat_u8 (ceil_div7 dc)) (as_u8 (Z.rem dc 7))).

(** [fn weekday_jan1(year: i16) -> u8] (Gauss's algorithm). *)
Definition weekday_jan1 (year : Z) : res Z :=
  y <- sub I16 year 1 ;;
  a <- mul I16 5 (Z.rem y 4) ;;
  b <- mul I16 4 (Z.rem y 100) ;;
  c <- mul I16 6 (Z.rem y 400) ;;
  s1 <- add I16 1 a ;;
  s2 <- add I16 s1 b ;;
  s3 <- add I16 s2 c ;;
  Ret (as_u8 (Z.rem s3 7)).

(** [fn weekday_jan4(year: i16) -> u8] *)
Definition weekday_jan4 (year : Z) : res Z :=
  j1 <- weekday_jan1 year ;;
  s <- add U8 j1 3 ;;
  Ret (Z.rem s 7).

(** [impl From<WeekDate> for OrdinalDate]:
    [let mut day = (date.week * 7 + date.day - (weekday_jan4(date.year) + 3)) as u16;]
    evaluated left to right in [u8], then the two [if]s in [u16]. *)
Definition ordinal_of_week (date : WeekDate.t) : res OrdinalDate.t :=
  let year := WeekDate.year date in
  a <- mul U8 (WeekDate.week date) 7 ;;
  b <- add U8 a (WeekDate.day date) ;;
  j4 <- weekday_jan4 year ;;
  k <- add U8 j4 3 ;;
  d0 <- sub U8 b k ;;
  d1 <- (if d0 <? 1 then
           yp <- sub I16 year 1 ;;
           add U16 d0 (num_days yp)
         else Ret d0) ;;
  d2 <- (if d1 >? num_days year then sub U16 d1 (num_days year) else Ret d1) ;;
  Ret (OrdinalDate.mk year d2).

(** [impl From<WeekDate> for YmdDate]: through [OrdinalDate]. *)
Definition ymd_of_week (date : WeekDate.t) : res YmdDate.t :=
  o <- ordinal_of_week date ;; ymd_of_ordinal o.

(** [impl From<YmdDate> for WeekDate]: through [OrdinalDate]. *)
Definition week_of_ymd (date : YmdDate.t) : res WeekDate.t :=
  o <- ordinal_of_ymd date ;; week_of_ordinal o.

(** The crate's unit tests. *)
Example test_ymd_from_week :
  ymd_of_week (WeekDate.mk 1985 15 5) = Ret (YmdDate.mk 1985 4 12).
Proof. reflexivity. Qed.
Example test_ymd_from_ordinal :
  ymd_of_ordinal (OrdinalDate.mk 1985 102) = Ret (YmdDate.mk 1985 4 12).
Proof. reflexivity. Qed.
Example test_week_from_ymd :
  week_of_ymd (YmdDate.mk 1985 4 12) = Ret (WeekDate.mk 1985 15 5) /\
  week_of_ymd (YmdDate.mk 2023 2 27) = Ret (WeekDate.mk 2023 9 1).
Proof. split; reflexivity. Qed.
Example test_week_from_ordinal :
  week_of_ordinal (OrdinalDate.mk 1985 102) = Ret (WeekDate.mk 1985 15 5).
Proof. reflexivity. Qed.
Example test_ordinal_from_ymd :
  ordinal_of_ymd (YmdDate.mk 1985 4 12) = Ret (OrdinalDate.mk 1985 102).
Proof. reflexivity. Qed.
Example test_ordinal_from_week :
  ordinal_of_week (WeekDate.mk 1985 15 5) = Ret (OrdinalDate.mk 1985 102).
Proof. reflexivity. Qed.
Example test_valid_date :
  ymd_is_valid (YmdDate.mk 0 13 1) = false /\ ymd_is_valid (YmdDate.mk 0 0 1) = false /\
  ymd_is_valid (YmdDate.mk 2018 2 29) = false /\
  week_is_valid (WeekDate.mk 0 0 1) = Ret false /\
  week_is_valid (WeekDate.mk 2018 53 1) = Ret false /\
  week_is_valid (WeekDate.mk 0 1 0) = Ret false /\
  week_is_valid (WeekDate.mk 0 1 8) = Ret false /\
  ordinal_is_valid (OrdinalDate.mk 2018 366) = false /\
  ordinal_is_valid (OrdinalDate.mk 2020 366) = true.
Proof. repeat split. Qed.

(** ** Parsing ([nom] over byte slices) *)

(** [nom::error::ErrorKind], the kinds that occur here. *)
Inductive error_kind := Alt | OneOf | Char | Digit.

(** [nom::Err] over [nom::error::Error<&[u8]>]. *)
Inductive nom_err :=
| Incomplete (needed : Z)
| Error (input : list byte) (code : error_kind).

(** [IResult<&[u8], O>]: the remainder and the value, or an error. *)
Inductive iresult (O : Type) :=
| IOk (rest : list byte) (v : O)
| IErr (e : nom_err).
Arguments IOk {O} rest v.
Arguments IErr {O} e.

Definition parser (O : Type) := list byte -> iresult O.

Definition pmap {A B} (p : parser A) (f : A -> B) : parser B :=
  fun i => match p i with IOk r v => IOk r (f v) | IErr e => IErr e end.

Definition pseq {A B} (p : parser A) (k : A -> parser B) : parser B :=
  fun i => match p i with IOk r v => k v r | IErr e => IErr e end.

(** [one_of!(list)] on [&[u8]]: the token is one byte, looked up among the
    bytes of [list] ([FindToken<u8> for &str] searches [list.as_bytes()]). *)
Definition one_of (list : List.list byte) : parser byte :=
  fun i => match i with
           | [] => IErr (Incomplete 1)
           | c :: rest =>
               if existsb (Byte.eqb c) list then IOk rest c
               else IErr (Error i OneOf)
           end.

(** [char!(c)] on [&[u8]]. *)
Definition char (c : byte) : parser byte :=
  fun i => match i with
           | [] => IErr (Incomplete 1)
           | b :: rest => if Byte.eqb b c then IOk rest b else IErr (Error i Char)
           end.

(** [alt!(p | q)]: [q] is tried only when [p] reports [Err::Error]; when
    both do, the error is [ErrorKind::Alt] at the start. *)
Definition alt {O} (p q : parser O) : parser O :=
  fun i => match p i with
           | IErr (Error _ _) =>
               match q i with
               | IErr (Error _ _) => IErr (Error i Alt)
               | r => r
               end
           | r => r
           end.

(** [opt!(p)]: an [Err::Error] of [p] becomes [None]. *)
Definition opt {O} (p : parser O) : parser (option O) :=
  fun i => match p i with
           | IOk r v => IOk r (Some v)
           | IErr (Error _ _) => IOk i None
           | IErr e => IErr e
           end.

(** ["-\u{2212}\u{2010}"] as UTF-8: [2D], [E2 88 92], [E2 80 90]. *)
Definition minus_signs : list byte := [x2d; xe2; x88; x92; xe2; x80; x90].

(** [named!(sign <i8>, alt!(one_of!("-\u{2212}\u{2010}") => { |_| -1 } |
    char!('+') => { |_| 1 }))] *)
Definition sign : parser Z :=
  alt (pmap (one_of minus_signs) (fun _ => -1))
      (pmap (char "+"%byte) (fun _ => 1)).

Example test_sign :
  sign (list_byte_of_string "-") = IOk [] (-1) /\
  sign (list_byte_of_string "+") = IOk [] 1 /\
  sign [] = IErr (Incomplete 1) /\
  sign (list_byte_of_string " ") = IErr (Error (list_byte_of_string " ") Alt).
Proof. repeat split. Qed.

(** [fn buf_to_int]: [sum *= 10; sum += digit - b'0'] for each byte. *)
Definition buf_to_int (buf : list byte) : Z :=
  fold_left (fun sum digit => sum * 10 + (Z.of_N (Byte.to_N digit) - 48)) buf 0.

Definition is_digit (b : byte) : bool :=
  (48 <=? Z.of_N (Byte.to_N b)) && (Z.of_N (Byte.to_N b) <=? 57).

(** Modelled from the spec: the grammar rules of [parse::date] (the file
    [src/parse/date.rs] is not part of the sources).  Integer fields are
    fixed-width decimal digit runs accumulated by [buf_to_int]; a year is an
    optional [sign] followed by four digits; the date alternatives are tried
    in the order calendar, week, ordinal, each in extended then basic form;
    the first alternative that matches wins and the unconsumed remainder is
    returned (partial-parse contract). *)
Definition digits (n : nat) : parser Z :=
  fun i => if (n <=? List.length i)%nat && forallb is_digit (firstn n i)
           then IOk (skipn n i) (buf_to_int (firstn n i))
           else IErr (Error i Digit).

Inductive Date :=
| YMD (d : YmdDate.t)
| Week (d : WeekDate.t)
| Ordinal (d : OrdinalDate.t).

Definition year : parser Z :=
  pseq (opt sign) (fun s =>
  pmap (digits 4) (fun y => match s with Some s => s * y | None => y end)).

Definition sep (extended : bool) (p : parser Z) : parser Z :=
  if extended then pseq (char "-"%byte) (fun _ => p) else p.

Definition date_ymd (extended : bool) : parser Date :=
  pseq year (fun y =>
  pseq (sep extended (digits 2)) (fun m =>
  pmap (sep extended (digits 2)) (fun d => YMD (YmdDate.mk y m d)))).

Definition date_week (extended : bool) : parser Date :=
  pseq year (fun y =>
  pseq (sep extended (pseq (char "W"%byte) (fun _ => digits 2))) (fun w =>
  pmap (sep extended (digits 1)) (fun d => Week (WeekDate.mk y w d)))).

Definition date_ordinal (extended : bool) : parser Date :=
  pseq year (fun y =>
  pmap (sep extended (digits 3)) (fun d => Ordinal (OrdinalDate.mk y d))).

Definition parse_date : parser Date :=
  alt (alt (date_ymd true) (date_ymd false))
      (alt (alt (date_week true) (date_week false))
           (alt (date_ordinal true) (date_ordinal false))).

Example test_parse_date :
  parse_date (list_byte_of_string "1985-04-12") = IOk [] (YMD (YmdDate.mk 1985 4 12)) /\
  parse_date (list_byte_of_string "1985-W15-5") = IOk [] (Week (WeekDate.mk 1985 15 5)) /\
  parse_date (list_byte_of_string "1985-102") = IOk [] (Ordinal (OrdinalDate.mk 1985 102)) /\
  parse_date (list_byte_of_string "19850412") = IOk [] (YMD (YmdDate.mk 1985 4 12)) /\
  parse_date (list_byte_of_string "1985102") = IOk [] (Ordinal (OrdinalDate.mk 1985 102)).
Proof. repeat split. Qed.

(** Rust's [Result]. *)
Inductive result (A E : Type) :=
| Ok (a : A)
| Err (e : E).
Arguments Ok {A E} a.
Arguments Err {A E} e.

(** The body shared by [FromStr for Date], [LocalTime], [Time] and
    [DateTime]: [parse::rule(s.as_bytes()).map(|x| x.1).or(Err(()))]. *)
Definition from_str {O} (rule : parser O) (s : string) : result O unit :=
  match rule (list_byte_of_string s) with
  | IOk _ v => Ok v
  | IErr _ => Err tt
  end.

(** [impl FromStr for Date] *)
Definition Date_from_str (s : string) : result Date unit := from_str parse_date s.

(** ** Specification-side definitions *)

(** The ISO rule as the spec words it: [p(x) = (x + ⌊x/4⌋ − ⌊x/100⌋ +
    ⌊x/400⌋) mod 7]; 53 weeks iff [p(year) = 4] or [p(year − 1) = 3]. *)
Definition spec_p (x : Z) : Z := (x + x / 4 - x / 100 + x / 400) mod 7.
Definition num_weeks_spec (year : Z) : Z :=
  if (spec_p year =? 4) || (spec_p (year - 1) =? 3) then 53 else 52.

(** ** Lemmas about the embedding *)

Lemma bind_Ret_inv {A B} (m : res A) (f : A -> res B) r :
  bind m f = Ret r -> exists a, m = Ret a /\ f a = Ret r.
Proof. destruct m as [a|p]; simpl; [eauto | discriminate]. Qed.

(** Peel every [bind] of a hypothesis [H : ... = Ret r]. *)
Ltac inv_binds H :=
  repeat (cbv beta zeta in H; match type of H with
  | bind _ _ = Ret _ =>
      let a := fresh "a" in let Ha := fresh "Ha" in
      apply bind_Ret_inv in H; destruct H as [a [Ha H]]
  end).

(** A [match] on a [Z] whose literal arms are all below 16 takes its
    default arm on any other value. *)
Ltac z_default m :=
  destruct m as [|p|p]; try reflexivity;
  do 4 (try (destruct p as [p|p|]; try reflexivity)); lia.

Lemma days_before_month_out (leap : bool) (m : Z) :
  ~ (1 <= m <= 12) -> days_before_month leap m = Panic Unreachable.
Proof. intros H. z_default m. Qed.

Lemma days_before_month_in (leap : bool) (m : Z) :
  1 <= m <= 12 -> exists b, days_before_month leap m = Ret b /\ 0 <= b <= 335.
Proof.
  intros H.
  assert (m = 1 \/ m = 2 \/ m = 3 \/ m = 4 \/ m = 5 \/ m = 6 \/ m = 7 \/ m = 8 \/
          m = 9 \/ m = 10 \/ m = 11 \/ m = 12) as Hm by lia.
  repeat destruct Hm as [Hm|Hm]; subst; destruct leap; simpl; eexists; split;
    reflexivity || lia.
Qed.

(** Every arm covers days in [1 .. 366] only, and in [1 .. 365] unless it is
    guarded by [leap]. *)
Definition arm_in_year (arm : Z * Z * bool * Z * Z) : Prop :=
  let '(lo, hi, guard, _, _) := arm in
  1 <= lo /\ hi <= 366 /\ (guard = false -> hi <= 365).

(** No arm of [ordinal_arms] matches a day outside [1 .. num_days]. *)
Lemma match_ordinal_none (leap : bool) (d : Z) arms :
  Forall arm_in_year arms ->
  d < 1 \/ (if leap then 366 else 365) < d ->
  match_ordinal leap d arms = Panic Unreachable.
Proof.
  induction 1 as [|[[[[lo hi] guard] m] off] arms Harm _ IH]; intros Hd; [reflexivity|].
  simpl. unfold arm_in_year in Harm. destruct Harm as (Hlo & Hhi & Hg).
  destruct ((lo <=? d) && (d <=? hi) && (negb guard || leap)) eqn:E; [|auto].
  apply andb_true_iff in E as [E Eg]. apply andb_true_iff in E as [E1 E2].
  apply Z.leb_le in E1. apply Z.leb_le in E2.
  destruct guard, leap; simpl in Eg; try discriminate;
    try specialize (Hg eq_refl); lia.
Qed.

Lemma ordinal_arms_bounds : Forall arm_in_year ordinal_arms.
Proof.
  unfold arm_in_year. repeat constructor; try lia; intros H; discriminate H.
Qed.

(** The integers [lo, lo + 1, ..., lo + n - 1]. *)
Definition zrange (lo : Z) (n : nat) : list Z :=
  map (fun k => lo + Z.of_nat k) (seq 0 n).

Lemma in_zrange lo n d : lo <= d < lo + Z.of_nat n -> In d (zrange lo n).
Proof.
  intros H. unfold zrange. apply in_map_iff. exists (Z.to_nat (d - lo)).
  split; [lia|]. apply in_seq. lia.
Qed.

Definition match_ordinal_hits (leap : bool) (d : Z) : bool :=
  match match_ordinal leap d ordinal_arms with Ret _ => true | Panic _ => false end.

(** Some arm matches every day in [1 .. num_days]. *)
Lemma match_ordinal_some (leap : bool) (d : Z) :
  1 <= d <= (if leap then 366 else 365) ->
  exists md, match_ordinal leap d ordinal_arms = Ret md.
Proof.
  intros H.
  assert (Hall : forallb (match_ordinal_hits leap)
                   (zrange 1 (if leap then 366 else 365)) = true)
    by (destruct leap; vm_compute; reflexivity).
  rewrite forallb_forall in Hall.
  assert (Hin : In d (zrange 1 (if leap then 366 else 365)))
    by (apply in_zrange; destruct leap; lia).
  specialize (Hall d Hin). unfold match_ordinal_hits in Hall.
  destruct (match_ordinal leap d ordinal_arms); [eauto | discriminate].
Qed.

Lemma num_days_leap year : num_days year = if is_leap year then 366 else 365.
Proof. reflexivity. Qed.

(** ** Claims *)

(** C5: [is_leap year] is true exactly when the year is divisible by 4 and
    either not divisible by 100 or divisible by 400; the body is the same for
    every year type, and the statement covers every integer.  In particular
    1600, 2000 and 2020 are leap years and 1700, 1800, 1900, 2018 and 2021 are
    not. *)
Theorem is_leap_correct :
  (forall year : Z,
     is_leap year = true <-> (4 | year) /\ (~ (100 | year) \/ (400 | year))) /\
  is_leap 1600 = true /\ is_leap 2000 = true /\ is_leap 2020 = true /\
  is_leap 1700 = false /\ is_leap 1800 = false /\ is_leap 1900 = false /\
  is_leap 2018 = false /\ is_leap 2021 = false.
Proof.
  split; [|repeat split].
  intros year. unfold is_leap.
  pose proof (Z.rem_divide year 4 ltac:(lia)) as D4.
  pose proof (Z.rem_divide year 100 ltac:(lia)) as D100.
  pose proof (Z.rem_divide year 400 ltac:(lia)) as D400.
  rewrite andb_true_iff, orb_true_iff, negb_true_iff, !Z.eqb_eq,
    <- D4, <- D400, Z.eqb_neq, <- D100.
  tauto.
Qed.

(** C7: a [LocalTime] is valid exactly when [hour <= 24], [minute <= 59],
    [second <= 60] and [nanos < 1_000_000_000] (second 60 is accepted, 61 is
    not); a [Time] is valid exactly when its local time is valid and
    [-1440 < tz_offset < 1440]. *)
Theorem time_validity :
  (forall t : LocalTime.t,
     local_time_is_valid t = true <->
     LocalTime.hour t <= 24 /\ LocalTime.minute t <= 59 /\
     LocalTime.second t <= 60 /\ LocalTime.nanos t < 1000000000) /\
  (forall t : Time.t,
     time_is_valid t = true <->
     local_time_is_valid (Time.local t) = true /\
     - 1440 < Time.tz_offset t < 1440) /\
  local_time_is_valid (LocalTime.mk 23 59 60 0) = true /\
  local_time_is_valid (LocalTime.mk 0 1 61 0) = false.
Proof.
  split; [|split; [|split; reflexivity]].
  - intros t. unfold local_time_is_valid.
    rewrite !andb_true_iff, !Z.leb_le, Z.ltb_lt. tauto.
  - intros t. unfold time_is_valid.
    rewrite !andb_true_iff, Z.ltb_lt, Z.gtb_lt.
    split; [intros [[H1 H2] H3] | intros [H1 [H2 H3]]]; repeat split; auto; lia.
Qed.

(** C9: a [YmdDate] whose month is 0 or greater than 12 is never valid. *)
Theorem ymd_invalid_month (d : YmdDate.t) :
  YmdDate.month d = 0 \/ 12 < YmdDate.month d -> ymd_is_valid d = false.
Proof.
  intros H. destruct d as [y m dd]; simpl in H. unfold ymd_is_valid; simpl.
  destruct (1 <=? dd); simpl; [|reflexivity].
  z_default m.
Qed.

Lemma ymd_invalid_month_witness :
  (YmdDate.month (YmdDate.mk 2018 13 1) = 0 \/ 12 < YmdDate.month (YmdDate.mk 2018 13 1))
  /\ ymd_is_valid (YmdDate.mk 2018 13 1) = false.
Proof.
  split; [right; simpl; lia|]. apply ymd_invalid_month. simpl; lia.
Defined.

(** C10: each conversion between [YmdDate], [WeekDate] and [OrdinalDate]
    (the four direct ones and the two composed through [OrdinalDate]), on any
    input on which it returns, returns a value with the year of its input. *)
Theorem conversions_keep_year :
  (forall d r, ymd_of_ordinal d = Ret r -> YmdDate.year r = OrdinalDate.year d) /\
  (forall d r, week_of_ordinal d = Ret r -> WeekDate.year r = OrdinalDate.year d) /\
  (forall d r, ordinal_of_ymd d = Ret r -> OrdinalDate.year r = YmdDate.year d) /\
  (forall d r, ordinal_of_week d = Ret r -> OrdinalDate.year r = WeekDate.year d) /\
  (forall d r, ymd_of_week d = Ret r -> YmdDate.year r = WeekDate.year d) /\
  (forall d r, week_of_ymd d = Ret r -> WeekDate.year r = YmdDate.year d).
Proof.
  assert (Y1 : forall d r, ymd_of_ordinal d = Ret r -> YmdDate.year r = OrdinalDate.year d).
  { intros d r H. unfold ymd_of_ordinal in H. inv_binds H.
    destruct a as [m dd]. injection H as <-. reflexivity. }
  assert (Y2 : forall d r, week_of_ordinal d = Ret r -> WeekDate.year r = OrdinalDate.year d).
  { intros d r H. unfold week_of_ordinal in H. inv_binds H.
    injection H as <-. reflexivity. }
  assert (Y3 : forall d r, ordinal_of_ymd d = Ret r -> OrdinalDate.year r = YmdDate.year d).
  { intros d r H. unfold ordinal_of_ymd in H. inv_binds H.
    injection H as <-. reflexivity. }
  assert (Y4 : forall d r, ordinal_of_week d = Ret r -> OrdinalDate.year r = WeekDate.year d).
  { intros d r H. unfold ordinal_of_week in H. inv_binds H.
    injection H as <-. reflexivity. }
  repeat split; auto.
  - intros d r H. unfold ymd_of_week in H. inv_binds H.
    rewrite (Y1 _ _ H). exact (Y4 _ _ Ha).
  - intros d r H. unfold week_of_ymd in H. inv_binds H.
    rewrite (Y2 _ _ H). exact (Y3 _ _ Ha).
Qed.

Lemma conversions_keep_year_witness :
  ymd_of_ordinal (OrdinalDate.mk 1985 102) = Ret (YmdDate.mk 1985 4 12) /\
  YmdDate.year (YmdDate.mk 1985 4 12) = OrdinalDate.year (OrdinalDate.mk 1985 102) /\
  week_of_ordinal (OrdinalDate.mk 1985 102) = Ret (WeekDate.mk 1985 15 5) /\
  WeekDate.year (WeekDate.mk 1985 15 5) = OrdinalDate.year (OrdinalDate.mk 1985 102) /\
  ordinal_of_ymd (YmdDate.mk 1985 4 12) = Ret (OrdinalDate.mk 1985 102) /\
  OrdinalDate.year (OrdinalDate.mk 1985 102) = YmdDate.year (YmdDate.mk 1985 4 12) /\
  ordinal_of_week (WeekDate.mk 1985 15 5) = Ret (OrdinalDate.mk 1985 102) /\
  OrdinalDate.year (OrdinalDate.mk 1985 102) = WeekDate.year (WeekDate.mk 1985 15 5) /\
  ymd_of_week (WeekDate.mk 1985 15 5) = Ret (YmdDate.mk 1985 4 12) /\
  YmdDate.year (YmdDate.mk 1985 4 12) = WeekDate.year (WeekDate.mk 1985 15 5) /\
  week_of_ymd (YmdDate.mk 1985 4 12) = Ret (WeekDate.mk 1985 15 5) /\
  WeekDate.year (WeekDate.mk 1985 15 5) = YmdDate.year (YmdDate.mk 1985 4 12).
Proof.
  destruct conversions_keep_year as (H1 & H2 & H3 & H4 & H5 & H6).
  repeat split;
    first [ apply H1; reflexivity | apply H2; reflexivity | apply H3; reflexivity
          | apply H4; reflexivity | apply H5; reflexivity | apply H6; reflexivity
          | reflexivity ].
Defined.

(** C2, counterexample: the conversions are not total.  [From<OrdinalDate>
    for YmdDate] reaches [unreachable!()] on day 0, [From<YmdDate> for
    OrdinalDate] on month 13, and [From<WeekDate> for OrdinalDate] overflows
    [u8] in [date.week * 7] from week 37 on. *)
Lemma conversions_not_total :
  ymd_of_ordinal (OrdinalDate.mk 2018 0) = Panic Unreachable /\
  ordinal_of_ymd (YmdDate.mk 2018 13 1) = Panic Unreachable /\
  ordinal_of_week (WeekDate.mk 1985 40 1) = Panic Overflow.
Proof. repeat split. Qed.

(** C2, as amended: [From<YmdDate> for OrdinalDate] panics through
    [unreachable!()] exactly when the month is outside [1 .. 12] and returns
    a value otherwise; [From<OrdinalDate> for YmdDate] panics through
    [unreachable!()] exactly when the day is outside [1 .. num_days(year)]
    and returns a value otherwise. *)
Theorem conversion_panics_by_design :
  (forall d : YmdDate.t, YmdDate.wf d = true ->
     (ordinal_of_ymd d = Panic Unreachable <-> ~ (1 <= YmdDate.month d <= 12)) /\
     ((exists r, ordinal_of_ymd d = Ret r) <-> 1 <= YmdDate.month d <= 12)) /\
  (forall o : OrdinalDate.t,
     (ymd_of_ordinal o = Panic Unreachable <->
        ~ (1 <= OrdinalDate.day o <= num_days (OrdinalDate.year o))) /\
     ((exists r, ymd_of_ordinal o = Ret r) <->
        1 <= OrdinalDate.day o <= num_days (OrdinalDate.year o))).
Proof.
  split.
  - intros [y m dd] Hwf. unfold YmdDate.wf, in_range in Hwf.
    rewrite !andb_true_iff, !Z.leb_le in Hwf. cbn [min_of max_of YmdDate.year
      YmdDate.month YmdDate.day] in Hwf.
    unfold ordinal_of_ymd; cbn [YmdDate.year YmdDate.month YmdDate.day].
    destruct (Z.le_decidable 1 m) as [H1|H1]; [destruct (Z.le_decidable m 12) as [H2|H2]|].
    + destruct (days_before_month_in (is_leap y) m (conj H1 H2)) as (b & Hb & Hbr).
      rewrite Hb; simpl. unfold add, checked, in_range; cbn [min_of max_of].
      replace ((0 <=? b + dd) && (b + dd <=? 65535)) with true
        by (symmetry; rewrite andb_true_iff, !Z.leb_le; lia); simpl.
      split; split; intros H; try discriminate; eauto; lia.
    + rewrite days_before_month_out by lia; simpl.
      split; split; intros H; try reflexivity; try lia.
      destruct H as [r Hr]; discriminate.
    + rewrite days_before_month_out by lia; simpl.
      split; split; intros H; try reflexivity; try lia.
      destruct H as [r Hr]; discriminate.
  - intros [y dd]. unfold ymd_of_ordinal; cbn [OrdinalDate.year OrdinalDate.day].
    rewrite num_days_leap.
    destruct (Z.le_decidable 1 dd) as [H1|H1];
      [destruct (Z.le_decidable dd (if is_leap y then 366 else 365)) as [H2|H2]|].
    + destruct (match_ordinal_some (is_leap y) dd (conj H1 H2)) as [[m d'] Hm].
      rewrite Hm; simpl.
      split; split; intros H; try discriminate; eauto; lia.
    + rewrite match_ordinal_none by (apply ordinal_arms_bounds || lia); simpl.
      split; split; intros H; try reflexivity; try lia.
      destruct H as [r Hr]; discriminate.
    + rewrite match_ordinal_none by (apply ordinal_arms_bounds || lia); simpl.
      split; split; intros H; try reflexivity; try lia.
      destruct H as [r Hr]; discriminate.
Qed.

Lemma conversion_panics_by_design_witness :
  YmdDate.wf (YmdDate.mk 2018 13 1) = true /\
  ordinal_of_ymd (YmdDate.mk 2018 13 1) = Panic Unreachable /\
  ymd_of_ordinal (OrdinalDate.mk 2018 0) = Panic Unreachable.
Proof.
  destruct conversion_panics_by_design as [HY HO].
  split; [reflexivity|]. split.
  - apply (HY (YmdDate.mk 2018 13 1) eq_refl). simpl. lia.
  - apply (HO (OrdinalDate.mk 2018 0)). simpl. lia.
Defined.

Lemma checked_ok t z : min_of t <= z <= max_of t -> checked t z = Ret z.
Proof.
  intros H. unfold checked, in_range.
  replace ((min_of t <=? z) && (z <=? max_of t)) with true; [reflexivity|].
  symmetry. rewrite andb_true_iff, !Z.leb_le. lia.
Qed.

Lemma min_of_nonpos t : min_of t <= 0.
Proof. destruct t; simpl; lia. Qed.

(** On a non-negative [x] whose first partial sum fits, the closure [p]
    computes the spec's [p(x)]. *)
Lemma num_weeks_p_ok t x :
  0 <= x -> x + x / 4 <= max_of t -> num_weeks_p t x = Ret (spec_p x).
Proof.
  intros Hx Hmax. pose proof (min_of_nonpos t) as Hmin.
  unfold num_weeks_p, add, sub.
  rewrite !Z.quot_div_nonneg by lia.
  pose proof (Z.div_mod x 4 ltac:(lia)). pose proof (Z.mod_pos_bound x 4 ltac:(lia)).
  pose proof (Z.div_mod x 100 ltac:(lia)). pose proof (Z.mod_pos_bound x 100 ltac:(lia)).
  pose proof (Z.div_mod x 400 ltac:(lia)). pose proof (Z.mod_pos_bound x 400 ltac:(lia)).
  rewrite checked_ok by lia; simpl.
  rewrite checked_ok by lia; simpl.
  rewrite checked_ok by lia; simpl.
  rewrite Z.rem_mod_nonneg by lia. reflexivity.
Qed.

(** C6, counterexample: for the negative year -2 the spec's rule gives 53
    weeks ([p(-2) = 4] with floor division) while [num_weeks] computes with
    Rust's truncating [/] and [%] and returns 52; for the [i16] year 32000 the
    sum [x + x / 4] overflows. *)
Lemma num_weeks_negative_year :
  num_weeks I16 (-2) = Ret 52 /\ num_weeks_spec (-2) = 53 /\
  num_weeks I16 32000 = Panic Overflow.
Proof. repeat split. Qed.

(** C6, as amended: for every year type and every year [y >= 1] for which
    [y + y / 4] fits in the type, [num_weeks(y)] is 53 when [p(y) = 4] or
    [p(y - 1) = 3] and 52 otherwise; [num_weeks(2015) = 53] and
    [num_weeks(2018) = 52]. *)
Theorem num_weeks_positive_years :
  (forall t y, 1 <= y -> y + y / 4 <= max_of t ->
     num_weeks t y = Ret (num_weeks_spec y)) /\
  num_weeks I16 2015 = Ret 53 /\ num_weeks I16 2018 = Ret 52.
Proof.
  split; [|split; reflexivity].
  intros t y Hy Hmax. pose proof (min_of_nonpos t) as Hmin.
  unfold num_weeks, num_weeks_spec.
  rewrite num_weeks_p_ok by lia; simpl.
  destruct (spec_p y =? 4); simpl; [reflexivity|].
  unfold sub. rewrite checked_ok.
  2:{ pose proof (Z.div_pos y 4 ltac:(lia) ltac:(lia)). lia. }
  simpl. rewrite num_weeks_p_ok; [reflexivity|lia|].
  pose proof (Z.div_le_mono (y - 1) y 4 ltac:(lia) ltac:(lia)). lia.
Qed.

Lemma num_weeks_positive_years_witness :
  1 <= 2015 /\ 2015 + 2015 / 4 <= max_of I16 /\
  num_weeks I16 2015 = Ret (num_weeks_spec 2015).
Proof.
  split; [lia|]. split; [vm_compute; discriminate|].
  apply (proj1 num_weeks_positive_years I16 2015); [lia | vm_compute; discriminate].
Defined.

(** C1 (defect): [From<OrdinalDate> for WeekDate] computes the weekday as
    [dc % 7], which is 0 rather than 7 on a Sunday, and the week as the
    ceiling of [dc / 7]; [From<WeekDate> for OrdinalDate] reads the pair
    back as [week * 7 + day], seven days too early.  The valid date
    1985-04-14, a Sunday, becomes week date (1985, 15, 0), which is not
    valid, and comes back as 1985-04-07; the ordinal 1985-104 comes back as
    1985-097. *)
Lemma week_roundtrip_sunday :
  ymd_is_valid (YmdDate.mk 1985 4 14) = true /\
  week_of_ymd (YmdDate.mk 1985 4 14) = Ret (WeekDate.mk 1985 15 0) /\
  week_is_valid (WeekDate.mk 1985 15 0) = Ret false /\
  ymd_of_week (WeekDate.mk 1985 15 0) = Ret (YmdDate.mk 1985 4 7) /\
  (w <- week_of_ymd (YmdDate.mk 1985 4 14) ;; ymd_of_week w) = Ret (YmdDate.mk 1985 4 7) /\
  (w <- week_of_ordinal (OrdinalDate.mk 1985 104) ;; ordinal_of_week w)
    = Ret (OrdinalDate.mk 1985 97).
Proof. repeat split. Qed.

(** C3 (defect): [From<OrdinalDate> for WeekDate] never rolls over into the
    adjacent week-numbering year.  2021-001 (ISO 2020-W53-5) becomes
    (2021, week 0, day 254), and 2018-365 (ISO 2019-W01-1) becomes
    (2018, week 53, day 1), which is not a valid week date since 2018 has
    52 weeks. *)
Lemma week_of_ordinal_no_rollover :
  ordinal_is_valid (OrdinalDate.mk 2021 1) = true /\
  week_of_ordinal (OrdinalDate.mk 2021 1) = Ret (WeekDate.mk 2021 0 254) /\
  ordinal_is_valid (OrdinalDate.mk 2018 365) = true /\
  week_of_ordinal (OrdinalDate.mk 2018 365) = Ret (WeekDate.mk 2018 53 1) /\
  week_is_valid (WeekDate.mk 2018 53 1) = Ret false.
Proof. repeat split. Qed.

(** C4, counterexample: [FromStr for Date] accepts a string whose date
    grammar leaves trailing bytes unconsumed. *)
Lemma Date_from_str_keeps_no_remainder_check :
  ~ (forall s v, Date_from_str s = Ok v ->
                 parse_date (list_byte_of_string s) = IOk [] v).
Proof.
  intros H.
  specialize (H "1985-04-12junk"%string (YMD (YmdDate.mk 1985 4 12)) eq_refl).
  vm_compute in H. discriminate H.
Qed.

(** C4, as amended: the [FromStr] entry points return [Ok] with the value
    of the grammar rule whenever the rule succeeds on a prefix of the input,
    whatever remainder it leaves, and return the single value [Err(())]
    whenever the rule fails. *)
Theorem from_str_contract :
  forall (O : Type) (rule : parser O) (s : string),
    (forall v, from_str rule s = Ok v <->
               exists rest, rule (list_byte_of_string s) = IOk rest v) /\
    (from_str rule s = Err tt <->
     exists e, rule (list_byte_of_string s) = IErr e).
Proof.
  intros O rule s. unfold from_str.
  destruct (rule (list_byte_of_string s)) as [rest v'|e]; split.
  - intros v. split; [intros H; injection H as <-; eauto|].
    intros [rest' H]. injection H as _ <-. reflexivity.
  - split; [discriminate|]. intros [e H]; discriminate.
  - intros v. split; [discriminate|]. intros [rest H]; discriminate.
  - split; [eauto|reflexivity].
Qed.

(** C8 (defect): [one_of!("-\u{2212}\u{2010}")] runs on a byte slice, so it
    matches a single byte among the UTF-8 bytes [2D E2 88 92 E2 80 90].  The
    minus sign U+2212 ([E2 88 92]) gives -1 with the two bytes [88 92] left
    over, and the lone byte [80] is read as a sign. *)
Lemma sign_unicode_minus :
  sign [xe2; x88; x92] = IOk [x88; x92] (-1) /\
  sign [xe2; x80; x90] = IOk [x80; x90] (-1) /\
  sign [x80] = IOk [] (-1).
Proof. repeat split. Qed.

(** ** Further properties of the calendar code *)

(** The day bound of [Valid for YmdDate], for a given leap flag. *)
Definition ymd_day_ok (leap : bool) (month day : Z) : bool :=
  match month with
  | 1 | 3 | 5 | 7 | 8 | 10 | 12 => day <=? 31
  | 4 | 6 | 9 | 11 => day <=? 30
  | 2 => day <=? (if leap then 29 else 28)
  | _ => false
  end.

Lemma ymd_is_valid_leap (y m dd : Z) :
  ymd_is_valid (YmdDate.mk y m dd) = (1 <=? dd) && ymd_day_ok (is_leap y) m dd.
Proof. reflexivity. Qed.

Lemma ymd_day_ok_bounds (leap : bool) (m dd : Z) :
  ymd_day_ok leap m dd = true -> 1 <= m <= 12 /\ dd <= 31.
Proof.
  intros H. destruct (Z.le_decidable 1 m); [destruct (Z.le_decidable m 12)|].
  - assert (m = 1 \/ m = 2 \/ m = 3 \/ m = 4 \/ m = 5 \/ m = 6 \/ m = 7 \/ m = 8 \/
            m = 9 \/ m = 10 \/ m = 11 \/ m = 12) as Hm by lia.
    repeat destruct Hm as [Hm|Hm]; subst; simpl in H;
      try destruct leap; apply Z.leb_le in H; lia.
  - assert (ymd_day_ok leap m dd = false) by (unfold ymd_day_ok; z_default m). congruence.
  - assert (ymd_day_ok leap m dd = false) by (unfold ymd_day_ok; z_default m). congruence.
Qed.

(** The YMD -> Ordinal -> YMD computation for one leap flag, month and day. *)
Definition ymd_rt_ok (leap : bool) (m dd : Z) : bool :=
  match days_before_month leap m with
  | Ret b =>
      (b + dd <=? 65535) && (1 <=? b + dd) && (b + dd <=? (if leap then 366 else 365)) &&
      match match_ordinal leap (b + dd) ordinal_arms with
      | Ret (m', d') => (m' =? m) && (as_u8 d' =? dd)
      | Panic _ => false
      end
  | Panic _ => false
  end.

Lemma ymd_rt_ok_all (leap : bool) (m dd : Z) :
  1 <= dd -> ymd_day_ok leap m dd = true -> ymd_rt_ok leap m dd = true.
Proof.
  intros H1 H. destruct (ymd_day_ok_bounds _ _ _ H) as [Hm Hd].
  assert (Hall : forallb (fun m => forallb (fun dd =>
                   implb (ymd_day_ok leap m dd) (ymd_rt_ok leap m dd))
                   (zrange 1 31)) (zrange 1 12) = true)
    by (destruct leap; vm_compute; reflexivity).
  rewrite forallb_forall in Hall.
  specialize (Hall m ltac:(apply in_zrange; simpl; lia)).
  rewrite forallb_forall in Hall.
  specialize (Hall dd ltac:(apply in_zrange; simpl; lia)).
  rewrite H in Hall. exact Hall.
Qed.

(** The Ordinal -> YMD -> Ordinal computation for one leap flag and day. *)
Definition ordinal_rt_ok (leap : bool) (d : Z) : bool :=
  match match_ordinal leap d ordinal_arms with
  | Ret (m, dd) =>
      (1 <=? as_u8 dd) && ymd_day_ok leap m (as_u8 dd) &&
      match days_before_month leap m with
      | Ret b => b + as_u8 dd =? d
      | Panic _ => false
      end
  | Panic _ => false
  end.

Lemma ordinal_rt_ok_all (leap : bool) (d : Z) :
  1 <= d <= (if leap then 366 else 365) -> ordinal_rt_ok leap d = true.
Proof.
  intros H.
  assert (Hall : forallb (ordinal_rt_ok leap) (zrange 1 (if leap then 366 else 365)) = true)
    by (destruct leap; vm_compute; reflexivity).
  rewrite forallb_forall in Hall. apply Hall, in_zrange. destruct leap; lia.
Qed.

Ltac bools :=
  repeat match goal with
  | H : (_ && _) = true |- _ => apply andb_true_iff in H; destruct H
  | H : (_ <=? _) = true |- _ => apply Z.leb_le in H
  | H : (_ =? _) = true |- _ => apply Z.eqb_eq in H
  end.

(** YMD -> Ordinal -> YMD is the identity on valid dates, through a valid
    ordinal date. *)
Lemma ymd_ordinal_ymd (d : YmdDate.t) :
  ymd_is_valid d = true ->
  exists o, ordinal_of_ymd d = Ret o /\ ordinal_is_valid o = true /\
            ymd_of_ordinal o = Ret d.
Proof.
  destruct d as [y m dd]. rewrite ymd_is_valid_leap. intros H. bools.
  pose proof (ymd_rt_ok_all (is_leap y) m dd H H0) as Hrt.
  unfold ymd_rt_ok in Hrt.
  destruct (days_before_month (is_leap y) m) as [b|] eqn:Hb; [|discriminate].
  bools.
  destruct (match_ordinal (is_leap y) (b + dd) ordinal_arms) as [[m' d']|] eqn:Hmo;
    [|discriminate].
  bools.
  exists (OrdinalDate.mk y (b + dd)). split; [|split].
  - unfold ordinal_of_ymd. cbn [YmdDate.year YmdDate.month YmdDate.day].
    rewrite Hb. cbn [bind]. unfold add. rewrite checked_ok by (cbn [min_of max_of]; lia). reflexivity.
  - unfold ordinal_is_valid. cbn [OrdinalDate.year OrdinalDate.day].
    rewrite num_days_leap. apply andb_true_iff; split; apply Z.leb_le; lia.
  - unfold ymd_of_ordinal. cbn [OrdinalDate.year OrdinalDate.day].
    rewrite Hmo. simpl. f_equal. f_equal; lia.
Qed.

(** Ordinal -> YMD -> Ordinal is the identity on valid ordinal dates,
    through a valid YMD date. *)
Lemma ordinal_ymd_ordinal (o : OrdinalDate.t) :
  ordinal_is_valid o = true ->
  exists d, ymd_of_ordinal o = Ret d /\ ymd_is_valid d = true /\
            ordinal_of_ymd d = Ret o.
Proof.
  destruct o as [y dd]. unfold ordinal_is_valid. cbn [OrdinalDate.year OrdinalDate.day].
  rewrite num_days_leap. intros H. bools.
  pose proof (ordinal_rt_ok_all (is_leap y) dd (conj H H0)) as Hrt.
  unfold ordinal_rt_ok in Hrt.
  destruct (match_ordinal (is_leap y) dd ordinal_arms) as [[m d']|] eqn:Hmo;
    [|discriminate].
  destruct (days_before_month (is_leap y) m) as [b|] eqn:Hb; [|bools; discriminate].
  bools.
  assert (dd <= 366) by (destruct (is_leap y); lia).
  exists (YmdDate.mk y m (as_u8 d')). split; [|split].
  - unfold ymd_of_ordinal. cbn [OrdinalDate.year OrdinalDate.day].
    rewrite Hmo. reflexivity.
  - rewrite ymd_is_valid_leap. apply andb_true_iff.
    split; [apply Z.leb_le; lia | assumption].
  - unfold ordinal_of_ymd. cbn [YmdDate.year YmdDate.month YmdDate.day].
    rewrite Hb. cbn [bind]. unfold add. rewrite checked_ok by (cbn [min_of max_of]; lia). rewrite H2. reflexivity.
Qed.

(** Days from 1 January of year 1 to 1 January of year [n], for [n >= 1],
    counting each year with [num_days]. *)
Fixpoint days_before_year (n : nat) : Z :=
  match n with
  | O => 0
  | S O => 0
  | S m => days_before_year m + num_days (Z.of_nat m)
  end.

(** The weekday of 1 January of year [y >= 1] by day counting (0 = Sunday):
    1 January of year 1 of the proleptic Gregorian calendar is a Monday. *)
Definition jan1_weekday_ref (y : Z) : Z := (1 + days_before_year (Z.to_nat y)) mod 7.

(** Compares [weekday_jan1] with the day count on [k] consecutive years from
    [y], [acc] being the days before year [y]. *)
Fixpoint jan1_check (k : nat) (y acc : Z) : bool :=
  match k with
  | O => true
  | S k' =>
      match weekday_jan1 y with Ret j => j =? (1 + acc) mod 7 | Panic _ => false end &&
      jan1_check k' (y + 1) (acc + num_days y)
  end.

Lemma days_before_year_succ (y : Z) :
  1 <= y -> days_before_year (Z.to_nat (y + 1)) = days_before_year (Z.to_nat y) + num_days y.
Proof.
  intros Hy. rewrite Z2Nat.inj_add by lia. rewrite Nat.add_1_r.
  destruct (Z.to_nat y) as [|n] eqn:E; [lia|].
  change (days_before_year (S (S n))) with
    (days_before_year (S n) + num_days (Z.of_nat (S n))).
  rewrite <- E, Z2Nat.id by lia. reflexivity.
Qed.

Lemma jan1_check_sound (k : nat) :
  forall y, 1 <= y -> jan1_check k y (days_before_year (Z.to_nat y)) = true ->
  forall y', y <= y' < y + Z.of_nat k -> weekday_jan1 y' = Ret (jan1_weekday_ref y').
Proof.
  induction k as [|k IH]; intros y Hy H y' Hy'; [lia|].
  simpl in H. apply andb_true_iff in H as [H1 H2].
  destruct (Z.eq_dec y' y) as [->|Hne].
  - destruct (weekday_jan1 y) as [j|]; [|discriminate].
    apply Z.eqb_eq in H1. subst j. reflexivity.
  - rewrite <- days_before_year_succ in H2 by lia.
    apply (IH (y + 1)); [lia | exact H2 | lia].
Qed.

Lemma in_range_true t z : in_range t z = true <-> min_of t <= z <= max_of t.
Proof. unfold in_range. rewrite andb_true_iff, !Z.leb_le. reflexivity. Qed.

Lemma checked_bad t z : ~ (min_of t <= z <= max_of t) -> checked t z = Panic Overflow.
Proof.
  intros H. unfold checked. destruct (in_range t z) eqn:E; [|reflexivity].
  apply in_range_true in E. contradiction.
Qed.

Lemma num_days_range y : num_days y = 365 \/ num_days y = 366.
Proof. unfold num_days. destruct (is_leap y); auto. Qed.

(** For positive [i16] years [weekday_jan4] returns a weekday [0 .. 6]. *)
Lemma weekday_jan4_range (y : Z) :
  1 <= y <= 32767 -> exists j, weekday_jan4 y = Ret j /\ 0 <= j <= 6.
Proof.
  intros Hy. unfold weekday_jan4, weekday_jan1, mul, add, sub.
  rewrite checked_ok by (cbn [min_of max_of]; lia). cbn [bind].
  rewrite !Z.rem_mod_nonneg by lia.
  pose proof (Z.mod_pos_bound (y - 1) 4 ltac:(lia)).
  pose proof (Z.mod_pos_bound (y - 1) 100 ltac:(lia)).
  pose proof (Z.mod_pos_bound (y - 1) 400 ltac:(lia)).
  rewrite checked_ok by (cbn [min_of max_of]; lia). cbn [bind].
  rewrite checked_ok by (cbn [min_of max_of]; lia). cbn [bind].
  rewrite checked_ok by (cbn [min_of max_of]; lia). cbn [bind].
  rewrite checked_ok by (cbn [min_of max_of]; lia). cbn [bind].
  rewrite checked_ok by (cbn [min_of max_of]; lia). cbn [bind].
  rewrite checked_ok by (cbn [min_of max_of]; lia). cbn [bind].
  rewrite Z.rem_mod_nonneg by lia.
  set (s := 1 + 5 * ((y - 1) mod 4) + 4 * ((y - 1) mod 100) + 6 * ((y - 1) mod 400)).
  pose proof (Z.mod_pos_bound s 7 ltac:(lia)).
  unfold as_u8. rewrite (Z.mod_small (s mod 7)) by lia.
  rewrite checked_ok by (cbn [min_of max_of]; lia). cbn [bind].
  rewrite Z.rem_mod_nonneg by lia.
  eexists; split; [reflexivity|]. pose proof (Z.mod_pos_bound (s mod 7 + 3) 7 ltac:(lia)); lia.
Qed.

(** The [From<WeekDate> for OrdinalDate] computation on a well-formed week
    date of a positive year: it returns, with a valid ordinal date, exactly
    when [weekday_jan4(year) + 3 <= week * 7 + day <= 255], and overflows
    [u8] otherwise. *)
Lemma ordinal_of_week_cases (w : WeekDate.t) (j : Z) :
  WeekDate.wf w = true -> 1 <= WeekDate.year w ->
  weekday_jan4 (WeekDate.year w) = Ret j -> 0 <= j <= 6 ->
  (j + 3 <= 7 * WeekDate.week w + WeekDate.day w <= 255 /\
   exists r, ordinal_of_week w = Ret r /\ ordinal_is_valid r = true) \/
  (~ (j + 3 <= 7 * WeekDate.week w + WeekDate.day w <= 255) /\
   ordinal_of_week w = Panic Overflow).
Proof.
  destruct w as [y wk dy]. cbn [WeekDate.year WeekDate.week WeekDate.day].
  intros Hwf Hy Hj Hjr. unfold WeekDate.wf in Hwf.
  rewrite !andb_true_iff, !in_range_true in Hwf.
  cbn [min_of max_of WeekDate.year WeekDate.week WeekDate.day] in Hwf.
  unfold ordinal_of_week, mul, add, sub.
  cbn [WeekDate.year WeekDate.week WeekDate.day].
  destruct (Z_le_gt_dec (wk * 7) 255).
  2:{ right. rewrite checked_bad by (cbn [min_of max_of]; lia). split; [lia | reflexivity]. }
  rewrite checked_ok by (cbn [min_of max_of]; lia). cbn [bind].
  destruct (Z_le_gt_dec (wk * 7 + dy) 255).
  2:{ right. rewrite checked_bad by (cbn [min_of max_of]; lia). split; [lia | reflexivity]. }
  rewrite checked_ok by (cbn [min_of max_of]; lia). cbn [bind]. rewrite Hj. cbn [bind].
  rewrite checked_ok by (cbn [min_of max_of]; lia). cbn [bind].
  destruct (Z_le_gt_dec (j + 3) (wk * 7 + dy)).
  2:{ right. rewrite checked_bad by (cbn [min_of max_of]; lia). split; [lia | reflexivity]. }
  rewrite checked_ok by (cbn [min_of max_of]; lia). cbn [bind].
  left. split; [lia|].
  pose proof (num_days_range y) as Ny. pose proof (num_days_range (y - 1)) as Np.
  destruct (wk * 7 + dy - (j + 3) <? 1) eqn:E1.
  - apply Z.ltb_lt in E1.
    rewrite checked_ok by (cbn [min_of max_of]; lia). cbn [bind].
    rewrite checked_ok by (cbn [min_of max_of]; lia). cbn [bind].
    destruct (wk * 7 + dy - (j + 3) + num_days (y - 1) >? num_days y) eqn:E2.
    + apply Z.gtb_lt in E2. rewrite checked_ok by (cbn [min_of max_of]; lia). cbn [bind].
      eexists; split; [reflexivity|].
      unfold ordinal_is_valid; cbn [OrdinalDate.year OrdinalDate.day].
      apply andb_true_iff; split; apply Z.leb_le; lia.
    + rewrite Z.gtb_ltb, Z.ltb_ge in E2. cbn [bind].
      eexists; split; [reflexivity|].
      unfold ordinal_is_valid; cbn [OrdinalDate.year OrdinalDate.day].
      apply andb_true_iff; split; apply Z.leb_le; lia.
  - apply Z.ltb_ge in E1. cbn [bind].
    destruct (wk * 7 + dy - (j + 3) >? num_days y) eqn:E2.
    + apply Z.gtb_lt in E2. lia.
    + rewrite Z.gtb_ltb, Z.ltb_ge in E2. cbn [bind].
      eexists; split; [reflexivity|].
      unfold ordinal_is_valid; cbn [OrdinalDate.year OrdinalDate.day].
      apply andb_true_iff; split; apply Z.leb_le; lia.
Qed.

Lemma num_weeks_spec_ok t y :
  1 <= y -> y + y / 4 <= max_of t -> num_weeks t y = Ret (num_weeks_spec y).
Proof.
  intros Hy Hmax. pose proof (min_of_nonpos t) as Hmin.
  unfold num_weeks, num_weeks_spec.
  rewrite num_weeks_p_ok by lia; cbn [bind].
  destruct (spec_p y =? 4); [reflexivity|].
  unfold sub. rewrite checked_ok.
  2:{ pose proof (Z.div_pos y 4 ltac:(lia) ltac:(lia)). lia. }
  cbn [bind]. rewrite num_weeks_p_ok; [reflexivity|lia|].
  pose proof (Z.div_le_mono (y - 1) y 4 ltac:(lia) ltac:(lia)). lia.
Qed.

Lemma fold_panic {A} (f : res Z -> A -> res Z) (l : list A) p :
  (forall x, f (Panic p) x = Panic p) -> fold_left f l (Panic p) = Panic p.
Proof.
  intros Hf. induction l as [|x l IH]; simpl; [reflexivity|]. rewrite Hf. exact IH.
Qed.

(** [fn buf_to_int<T>] in the arithmetic of [T = t]: [sum *= T::from(10)]
    then [sum += T::from( *digit - b'0')], where [*digit - b'0'] is a [u8]
    subtraction. *)
Definition buf_to_int_in (t : int_ty) (buf : list byte) : res Z :=
  fold_left (fun acc digit =>
               sum <- acc ;;
               s <- mul t sum 10 ;;
               dv <- sub U8 (Z.of_N (Byte.to_N digit)) 48 ;;
               add t s dv) buf (Ret 0).

Definition byte_val (b : byte) : Z := Z.of_N (Byte.to_N b).

Lemma byte_val_range b : 0 <= byte_val b <= 255.
Proof.
  unfold byte_val. pose proof (Byte.to_N_bounded b). lia.
Qed.

Lemma buf_to_int_snoc a x :
  buf_to_int (a ++ [x]) = buf_to_int a * 10 + (byte_val x - 48).
Proof. unfold buf_to_int. rewrite fold_left_app. reflexivity. Qed.

Lemma buf_to_int_nonneg buf :
  Forall (fun b => 48 <= byte_val b) buf -> 0 <= buf_to_int buf.
Proof.
  induction buf as [|x a IH] using rev_ind; intros H; [reflexivity|].
  apply Forall_app in H as [Ha Hx]. inversion Hx; subst.
  rewrite buf_to_int_snoc. specialize (IH Ha). lia.
Qed.

(** Ordinal -> Week on any ordinal date of day at most 366. *)
Lemma week_of_ordinal_small (o : OrdinalDate.t) :
  in_range I16 (OrdinalDate.year o) = true -> 0 <= OrdinalDate.day o <= 366 ->
  exists w, week_of_ordinal o = Ret w /\ 0 <= WeekDate.week w <= 53.
Proof.
  destruct o as [year day]. cbn [OrdinalDate.year OrdinalDate.day].
  intros Hy Hd. apply in_range_true in Hy. cbn [min_of max_of] in Hy.
  unfold week_of_ordinal, add, sub, mul. cbn [OrdinalDate.year OrdinalDate.day].
  set (y := Z.rem (Z.rem year 100) 28).
  set (cc := Z.rem (Z.quot year 100) 4).
  assert (Hyb : Z.abs y < 28) by (apply Z.rem_bound_abs; lia).
  assert (Hcb : Z.abs cc < 4) by (apply Z.rem_bound_abs; lia).
  rewrite checked_ok by (cbn [min_of max_of]; lia). cbn [bind].
  assert (Hq : Z.abs (Z.quot (y - 1) 4) <= 7).
  { destruct (Z.le_gt_cases 0 (y - 1)).
    - pose proof (Z.mul_quot_le (y - 1) 4 ltac:(lia) ltac:(lia)). lia.
    - pose proof (Z.mul_quot_ge (y - 1) 4 ltac:(lia) ltac:(lia)). lia. }
  rewrite checked_ok by (cbn [min_of max_of]; lia). cbn [bind].
  rewrite checked_ok by (cbn [min_of max_of]; lia). cbn [bind].
  rewrite checked_ok by (cbn [min_of max_of]; lia). cbn [bind].
  rewrite checked_ok by (cbn [min_of max_of]; lia). cbn [bind].
  set (t4 := y + Z.quot (y - 1) 4 + 5 * cc - 1).
  assert (Hc0 : Z.abs (Z.rem t4 7) < 7) by (apply Z.rem_bound_abs; lia).
  assert (Hday : as_i16 day = day)
    by (unfold as_i16; rewrite Z.mod_small by lia; lia).
  destruct (Z.rem t4 7 >? 3) eqn:E.
  - apply Z.gtb_lt in E.
    rewrite checked_ok by (cbn [min_of max_of]; lia). cbn [bind].
    rewrite Hday, checked_ok by (cbn [min_of max_of]; lia). cbn [bind].
    eexists; split; [reflexivity|]. cbn [WeekDate.week].
    assert (-369 / 7 <= - (day + (Z.rem t4 7 - 7)) / 7) by (apply Z.div_le_mono; lia).
    change (-369 / 7) with (-53) in *. unfold sat_u8, ceil_div7. lia.
  - rewrite Z.gtb_ltb, Z.ltb_ge in E. cbn [bind].
    rewrite Hday, checked_ok by (cbn [min_of max_of]; lia). cbn [bind].
    eexists; split; [reflexivity|]. cbn [WeekDate.week].
    assert (-369 / 7 <= - (day + Z.rem t4 7) / 7) by (apply Z.div_le_mono; lia).
    change (-369 / 7) with (-53) in *. unfold sat_u8, ceil_div7. lia.
Qed.

Lemma existsb_byte (c : byte) l : existsb (Byte.eqb c) l = true <-> In c l.
Proof.
  rewrite existsb_exists. split.
  - intros [x [Hin Heq]]. apply Byte.byte_dec_bl in Heq. subst. exact Hin.
  - intros Hin. exists c. split; [exact Hin|]. apply Byte.byte_dec_lb. reflexivity.
Qed.

Lemma plus_not_minus : ~ In "+"%byte minus_signs.
Proof. simpl. intuition discriminate. Qed.

Lemma sign_cons (c : byte) r :
  sign (c :: r) =
  if existsb (Byte.eqb c) minus_signs then IOk r (-1)
  else if Byte.eqb c "+"%byte then IOk r 1
  else IErr (Error (c :: r) Alt).
Proof.
  unfold sign, alt, pmap, one_of, char.
  destruct (existsb (Byte.eqb c) minus_signs); [reflexivity|].
  destruct (Byte.eqb c "+"%byte); reflexivity.
Qed.

Lemma buf_to_int_in_snoc t a x :
  buf_to_int_in t (a ++ [x]) =
  (sum <- buf_to_int_in t a ;;
   s <- mul t sum 10 ;;
   dv <- sub U8 (byte_val x) 48 ;;
   add t s dv).
Proof. unfold buf_to_int_in. rewrite fold_left_app. reflexivity. Qed.

Lemma buf_to_int_in_ok t buf :
  Forall (fun b => 48 <= byte_val b) buf -> buf_to_int buf <= max_of t ->
  buf_to_int_in t buf = Ret (buf_to_int buf).
Proof.
  pose proof (min_of_nonpos t) as Hmin.
  induction buf as [|x a IH] using rev_ind; intros H Hmax; [reflexivity|].
  pose proof (buf_to_int_nonneg _ H) as Hall.
  apply Forall_app in H as [Ha Hx]. inversion Hx as [|? ? Hx48]; subst.
  pose proof (buf_to_int_nonneg _ Ha) as Hna.
  pose proof (byte_val_range x) as Hxr.
  rewrite buf_to_int_snoc in Hmax, Hall |- *. rewrite buf_to_int_in_snoc.
  rewrite IH by (auto; lia). cbn [bind].
  unfold mul, sub, add.
  rewrite checked_ok by lia. cbn [bind].
  rewrite checked_ok by (cbn [min_of max_of]; lia). cbn [bind].
  rewrite checked_ok by lia. reflexivity.
Qed.

Lemma buf_to_int_in_low t buf :
  (exists b, In b buf /\ byte_val b < 48) -> exists p, buf_to_int_in t buf = Panic p.
Proof.
  induction buf as [|x a IH] using rev_ind; intros [b [Hin Hb]]; [destruct Hin|].
  rewrite buf_to_int_in_snoc. apply in_app_or in Hin as [Hin|[<-|[]]].
  - destruct IH as [p Hp]; [eauto|]. rewrite Hp. eexists; reflexivity.
  - destruct (buf_to_int_in t a) as [v|p]; cbn [bind]; [|eexists; reflexivity].
    destruct (mul t v 10) as [s|p]; cbn [bind]; [|eexists; reflexivity].
    unfold sub. rewrite checked_bad; [eexists; reflexivity|].
    cbn [min_of max_of]. lia.
Qed.

Lemma num_weeks_i16_overflow y :
  26215 <= y -> num_weeks I16 y = Panic Overflow.
Proof.
  intros Hy. unfold num_weeks, num_weeks_p, add.
  rewrite Z.quot_div_nonneg by lia.
  rewrite checked_bad; [reflexivity|].
  cbn [min_of max_of].
  pose proof (Z.div_le_mono 26215 y 4 ltac:(lia) Hy).
  change (26215 / 4) with 6553 in *. lia.
Qed.

(** [impl Valid for Date]. *)
Definition date_is_valid (date : Date) : res bool :=
  match date with
  | YMD d => Ret (ymd_is_valid d)
  | Week d => week_is_valid d
  | Ordinal d => Ret (ordinal_is_valid d)
  end.

(** [impl From<Date> for YmdDate]. *)
Definition ymd_of_date (date : Date) : res YmdDate.t :=
  match date with
  | YMD d => Ret d
  | Week d => ymd_of_week d
  | Ordinal d => ymd_of_ordinal d
  end.

(** [impl From<Date> for WeekDate]. *)
Definition week_of_date (date : Date) : res WeekDate.t :=
  match date with
  | YMD d => week_of_ymd d
  | Week d => Ret d
  | Ordinal d => week_of_ordinal d
  end.

(** [impl From<Date> for OrdinalDate]. *)
Definition ordinal_of_date (date : Date) : res OrdinalDate.t :=
  match date with
  | YMD d => ordinal_of_ymd d
  | Week d => ordinal_of_week d
  | Ordinal d => Ret d
  end.

Definition date_year (date : Date) : Z :=
  match date with
  | YMD d => YmdDate.year d
  | Week d => WeekDate.year d
  | Ordinal d => OrdinalDate.year d
  end.

Definition date_wf (date : Date) : bool :=
  match date with
  | YMD d => YmdDate.wf d
  | Week d => WeekDate.wf d
  | Ordinal d => OrdinalDate.wf d
  end.

Lemma wf_week_year (w : WeekDate.t) :
  WeekDate.wf w = true -> -32768 <= WeekDate.year w <= 32767.
Proof.
  unfold WeekDate.wf. intros H. apply andb_true_iff in H as [H _].
  apply andb_true_iff in H as [H _]. apply in_range_true in H. exact H.
Qed.

Lemma date_paths (dt : Date) :
  date_is_valid dt = Ret true -> date_wf dt = true -> 1 <= date_year dt ->
  ymd_of_date dt = (o <- ordinal_of_date dt ;; ymd_of_ordinal o) /\
  ordinal_of_date dt = (d <- ymd_of_date dt ;; ordinal_of_ymd d).
Proof.
  destruct dt as [d|w|o]; cbn [date_is_valid date_wf date_year ymd_of_date ordinal_of_date];
    intros Hv Hwf Hy.
  - injection Hv as Hv. destruct (ymd_ordinal_ymd d Hv) as [o [Ho [_ Hd]]].
    split; [|reflexivity]. rewrite Ho. cbn [bind]. rewrite Hd. reflexivity.
  - split; [reflexivity|]. unfold ymd_of_week.
    pose proof (wf_week_year w Hwf) as Hyr.
    destruct (weekday_jan4_range (WeekDate.year w) ltac:(lia)) as [j [Hj Hjr]].
    destruct (ordinal_of_week_cases w j Hwf Hy Hj Hjr) as [[_ [r [Hr Hrv]]]|[_ Hp]].
    + rewrite Hr. cbn [bind].
      destruct (ordinal_ymd_ordinal r Hrv) as [d [Hd [_ Hback]]].
      rewrite Hd. cbn [bind]. rewrite Hback. reflexivity.
    + rewrite Hp. reflexivity.
  - injection Hv as Hv. destruct (ordinal_ymd_ordinal o Hv) as [d [Hd [_ Hback]]].
    split; [reflexivity|]. rewrite Hd. cbn [bind]. rewrite Hback. reflexivity.
Qed.

(** * Further properties of the code *)

(** From<YmdDate> for OrdinalDate followed by From<OrdinalDate> for YmdDate:
    on every valid calendar date the first conversion succeeds with a valid
    ordinal date and the second gives the calendar date back. *)
Theorem ymd_to_ordinal_roundtrip (d : YmdDate.t) :
  ymd_is_valid d = true ->
  exists o, ordinal_of_ymd d = Ret o /\ ordinal_is_valid o = true /\
            ymd_of_ordinal o = Ret d.
Proof. exact (ymd_ordinal_ymd d). Qed.

Lemma ymd_to_ordinal_roundtrip_witness :
  ymd_is_valid (YmdDate.mk 1985 4 12) = true /\
  exists o, ordinal_of_ymd (YmdDate.mk 1985 4 12) = Ret o /\ ordinal_is_valid o = true /\
            ymd_of_ordinal o = Ret (YmdDate.mk 1985 4 12).
Proof. split; [reflexivity|]. apply ymd_to_ordinal_roundtrip. reflexivity. Defined.

(** From<OrdinalDate> for YmdDate followed by From<YmdDate> for OrdinalDate:
    on every valid ordinal date the first conversion succeeds with a valid
    calendar date and the second gives the ordinal date back. *)
Theorem ordinal_to_ymd_roundtrip (o : OrdinalDate.t) :
  ordinal_is_valid o = true ->
  exists d, ymd_of_ordinal o = Ret d /\ ymd_is_valid d = true /\
            ordinal_of_ymd d = Ret o.
Proof. exact (ordinal_ymd_ordinal o). Qed.

Lemma ordinal_to_ymd_roundtrip_witness :
  ordinal_is_valid (OrdinalDate.mk 2000 366) = true /\
  exists d, ymd_of_ordinal (OrdinalDate.mk 2000 366) = Ret d /\ ymd_is_valid d = true /\
            ordinal_of_ymd d = Ret (OrdinalDate.mk 2000 366).
Proof. split; [reflexivity|]. apply ordinal_to_ymd_roundtrip. reflexivity. Defined.

(** weekday_jan1 returns, for every positive i16 year, the weekday of
    1 January (0 = Sunday) obtained by counting days from 1 January of
    year 1, a Monday. *)
Theorem weekday_jan1_day_count (y : Z) :
  1 <= y <= 32767 -> weekday_jan1 y = Ret (jan1_weekday_ref y).
Proof.
  intros Hy. apply (jan1_check_sound (Z.to_nat 32767) 1); [lia| |lia].
  vm_compute. reflexivity.
Qed.

Lemma weekday_jan1_day_count_witness :
  weekday_jan1 2024 = Ret (jan1_weekday_ref 2024) /\ jan1_weekday_ref 2024 = 1.
Proof. split; [apply weekday_jan1_day_count; lia | vm_compute; reflexivity]. Defined.

(** From<WeekDate> for OrdinalDate on a week date of positive year: with
    [j] the weekday of 4 January, it returns a valid ordinal date when
    [j + 3 <= 7 * week + day <= 255] and panics with an arithmetic overflow
    of its u8 computation otherwise. *)
Theorem ordinal_of_week_domain (w : WeekDate.t) :
  WeekDate.wf w = true -> 1 <= WeekDate.year w ->
  exists j, weekday_jan4 (WeekDate.year w) = Ret j /\ 0 <= j <= 6 /\
    ((exists r, ordinal_of_week w = Ret r) <->
       j + 3 <= 7 * WeekDate.week w + WeekDate.day w <= 255) /\
    (ordinal_of_week w = Panic Overflow <->
       ~ (j + 3 <= 7 * WeekDate.week w + WeekDate.day w <= 255)) /\
    (forall r, ordinal_of_week w = Ret r -> ordinal_is_valid r = true).
Proof.
  intros Hwf Hy. pose proof (wf_week_year w Hwf) as Hyr.
  destruct (weekday_jan4_range (WeekDate.year w) ltac:(lia)) as [j [Hj Hjr]].
  exists j. split; [exact Hj|]. split; [exact Hjr|].
  destruct (ordinal_of_week_cases w j Hwf Hy Hj Hjr) as [[Hc [r [Hr Hrv]]]|[Hc Hp]];
    rewrite ?Hr, ?Hp.
  - split; [split; [intros _; exact Hc|intros _; eauto]|].
    split; [split; [discriminate|intros Hn; contradiction]|].
    intros r' Hr'. injection Hr' as <-. exact Hrv.
  - split; [split; [intros [r Hr]; discriminate|intros Hn; contradiction]|].
    split; [split; [intros _; exact Hc|reflexivity]|].
    intros r' Hr'. discriminate.
Qed.

Lemma ordinal_of_week_domain_witness :
  exists j, weekday_jan4 1985 = Ret j /\ 0 <= j <= 6 /\
    ((exists r, ordinal_of_week (WeekDate.mk 1985 15 5) = Ret r) <->
       j + 3 <= 7 * 15 + 5 <= 255) /\
    (ordinal_of_week (WeekDate.mk 1985 15 5) = Panic Overflow <->
       ~ (j + 3 <= 7 * 15 + 5 <= 255)) /\
    (forall r, ordinal_of_week (WeekDate.mk 1985 15 5) = Ret r -> ordinal_is_valid r = true).
Proof. apply (ordinal_of_week_domain (WeekDate.mk 1985 15 5)); [reflexivity|cbn; lia]. Defined.

(** From<WeekDate> for OrdinalDate panics on every week date from week 37
    on: [week * 7] overflows u8. *)
Theorem ordinal_of_week_late_week_panics (w : WeekDate.t) :
  37 <= WeekDate.week w -> ordinal_of_week w = Panic Overflow.
Proof.
  intros Hw. unfold ordinal_of_week, mul.
  rewrite checked_bad; [reflexivity|]. cbn [min_of max_of]. lia.
Qed.

Lemma ordinal_of_week_late_week_panics_witness :
  37 <= WeekDate.week (WeekDate.mk 2020 53 7) /\
  ordinal_of_week (WeekDate.mk 2020 53 7) = Panic Overflow.
Proof. split; [cbn; lia|apply ordinal_of_week_late_week_panics; cbn; lia]. Defined.

(** From<OrdinalDate> for WeekDate does not panic on an i16 year and a day
    between 0 and 366, and the week it returns is between 0 and 53. *)
Theorem week_of_ordinal_week_range (o : OrdinalDate.t) :
  in_range I16 (OrdinalDate.year o) = true -> 0 <= OrdinalDate.day o <= 366 ->
  exists w, week_of_ordinal o = Ret w /\ 0 <= WeekDate.week w <= 53.
Proof. exact (week_of_ordinal_small o). Qed.

Lemma week_of_ordinal_week_range_witness :
  exists w, week_of_ordinal (OrdinalDate.mk (-32768) 366) = Ret w /\ 0 <= WeekDate.week w <= 53.
Proof. apply week_of_ordinal_week_range; [reflexivity|cbn; lia]. Defined.

(** sign consumes exactly one input byte: -1 for a byte of the UTF-8
    encoding of "-\u{2212}\u{2010}", 1 for '+', an Alt error at the input
    for any other byte, and Incomplete(1) on empty input. *)
Theorem sign_behaviour :
  sign [] = IErr (Incomplete 1) /\
  forall (c : byte) r,
    (In c minus_signs -> sign (c :: r) = IOk r (-1)) /\
    (c = "+"%byte -> sign (c :: r) = IOk r 1) /\
    (~ In c minus_signs -> c <> "+"%byte -> sign (c :: r) = IErr (Error (c :: r) Alt)).
Proof.
  split; [reflexivity|]. intros c r. rewrite sign_cons.
  split; [|split].
  - intros H. apply existsb_byte in H. rewrite H. reflexivity.
  - intros ->. pose proof plus_not_minus as Hn. rewrite <- existsb_byte in Hn.
    apply not_true_is_false in Hn. rewrite Hn. reflexivity.
  - intros Hn Hp. rewrite <- existsb_byte in Hn. apply not_true_is_false in Hn.
    rewrite Hn. destruct (Byte.eqb c "+"%byte) eqn:E; [|reflexivity].
    apply Byte.byte_dec_bl in E. contradiction.
Qed.

Lemma sign_behaviour_witness :
  sign [xe2; x80; x90; "1"%byte] = IOk [x80; x90; "1"%byte] (-1) /\
  sign ["+"%byte] = IOk [] 1 /\
  sign ["x"%byte] = IErr (Error ["x"%byte] Alt).
Proof.
  destruct sign_behaviour as [_ H]. split; [|split].
  - apply (H xe2 [x80; x90; "1"%byte]). simpl. auto.
  - apply (H "+"%byte []). reflexivity.
  - apply (H "x"%byte []); [simpl; intuition discriminate|discriminate].
Defined.

(** buf_to_int::<T> on bytes none of which is below b'0' returns the
    decimal value of the bytes (a byte above b'9' counting as a digit of its
    code minus 48) when that value fits in T. *)
Theorem buf_to_int_checked_value (t : int_ty) (buf : list byte) :
  Forall (fun b => 48 <= byte_val b) buf -> buf_to_int buf <= max_of t ->
  buf_to_int_in t buf = Ret (buf_to_int buf).
Proof. exact (buf_to_int_in_ok t buf). Qed.

Lemma buf_to_int_checked_value_witness :
  buf_to_int_in I16 (list_byte_of_string "1985") = Ret 1985 /\
  buf_to_int_in U8 (list_byte_of_string "1:") = Ret 20.
Proof.
  split.
  - apply (buf_to_int_checked_value I16 (list_byte_of_string "1985")); [|vm_compute; discriminate].
    repeat constructor; vm_compute; discriminate.
  - apply (buf_to_int_checked_value U8 (list_byte_of_string "1:")); [|vm_compute; discriminate].
    repeat constructor; vm_compute; discriminate.
Defined.

(** buf_to_int panics on any input that holds a byte below b'0': the u8
    subtraction [*digit - b'0'] underflows. *)
Theorem buf_to_int_checked_panics (t : int_ty) (buf : list byte) :
  (exists b, In b buf /\ byte_val b < 48) -> exists p, buf_to_int_in t buf = Panic p.
Proof. exact (buf_to_int_in_low t buf). Qed.

Lemma buf_to_int_checked_panics_witness :
  exists p, buf_to_int_in I32 (list_byte_of_string "12-4") = Panic p.
Proof.
  apply buf_to_int_checked_panics. exists "-"%byte. split; [simpl; auto|vm_compute; reflexivity].
Defined.

(** Valid for WeekDate with an i16 year and a week of at least 1: for
    years 26215 and above, num_weeks overflows i16 and the check panics. *)
Theorem week_is_valid_i16_overflow (w : WeekDate.t) :
  1 <= WeekDate.week w -> 26215 <= WeekDate.year w -> week_is_valid w = Panic Overflow.
Proof.
  intros Hw Hy. unfold week_is_valid.
  apply Z.leb_le in Hw. rewrite Hw. rewrite num_weeks_i16_overflow by exact Hy. reflexivity.
Qed.

Lemma week_is_valid_i16_overflow_witness :
  week_is_valid (WeekDate.mk 32767 1 1) = Panic Overflow.
Proof. apply week_is_valid_i16_overflow; cbn; lia. Defined.

(** Valid for WeekDate on years 1 to 26214 does not panic: a week date is
    valid exactly when 1 <= week <= the ISO number of weeks of the year and
    1 <= day <= 7. *)
Theorem week_is_valid_positive_years (w : WeekDate.t) :
  1 <= WeekDate.year w <= 26214 ->
  week_is_valid w =
  Ret ((1 <=? WeekDate.week w) && (WeekDate.week w <=? num_weeks_spec (WeekDate.year w)) &&
       (1 <=? WeekDate.day w) && (WeekDate.day w <=? 7)).
Proof.
  intros Hy. unfold week_is_valid.
  destruct (1 <=? WeekDate.week w); [|reflexivity].
  rewrite num_weeks_spec_ok.
  - reflexivity.
  - lia.
  - cbn [max_of]. pose proof (Z.div_le_mono (WeekDate.year w) 26214 4 ltac:(lia) ltac:(lia)).
    change (26214 / 4) with 6553 in *. lia.
Qed.

Lemma week_is_valid_positive_years_witness :
  week_is_valid (WeekDate.mk 2020 53 7) = Ret true.
Proof.
  rewrite week_is_valid_positive_years by (cbn; lia). vm_compute. reflexivity.
Defined.

(** From<Date> for YmdDate and From<Date> for OrdinalDate agree on every
    valid date of positive year: the calendar date is the ordinal date
    converted, and the ordinal date is the calendar date converted. *)
Theorem date_conversions_commute (dt : Date) :
  date_is_valid dt = Ret true -> date_wf dt = true -> 1 <= date_year dt ->
  ymd_of_date dt = (o <- ordinal_of_date dt ;; ymd_of_ordinal o) /\
  ordinal_of_date dt = (d <- ymd_of_date dt ;; ordinal_of_ymd d).
Proof. exact (date_paths dt). Qed.

Lemma date_conversions_commute_witness :
  ymd_of_date (Week (WeekDate.mk 1985 15 5)) =
    (o <- ordinal_of_date (Week (WeekDate.mk 1985 15 5)) ;; ymd_of_ordinal o) /\
  ordinal_of_date (Week (WeekDate.mk 1985 15 5)) =
    (d <- ymd_of_date (Week (WeekDate.mk 1985 15 5)) ;; ordinal_of_ymd d).
Proof. apply date_conversions_commute; [vm_compute; reflexivity|vm_compute; reflexivity|cbn; lia]. Defined.
